(** * router-rebooter: a connectivity watchdog that power-cycles a router

    Shallow embedding of [pulse_gpio_pin.py] and [router_rebooter.py], and
    the properties of the monitoring / retry state machine.

    - Python [int] is [Z]; Python [float] is a binary64 [float].
    - The endless [while True] loop is modelled by its finite prefixes: the
      loop body is a function of the verdict of [is_network_up], and a run is
      driven by the list of verdicts observed so far.
    - What the program does to the outside world (log lines on stderr, sleeps,
      GPIO calls) is recorded as a trace of events. *)

From Stdlib Require Import ZArith Lia Bool Ascii String.
From Stdlib Require Import Floats.PrimFloat.
From Stdlib Require Floats.SpecFloat Floats.FloatOps Floats.FloatAxioms.
From stdpp Require Import base option list gmap strings.

Local Open Scope Z_scope.

(** ** pulse_gpio_pin.py *)

Module PulseGpioPin.

Definition DEFAULT_PULSE_SECONDS : float := 2%float.
Definition MAX_PIN_NUM : Z := 27.

(** Calls the module makes into [RPi.GPIO] and [time], in the order they are
    issued. *)
Inductive call : Type :=
| Setwarnings (flag : bool)
| SetmodeBCM
| SetupOut (pin_num : Z)
| Output (pin_num : Z) (level : bool)
| Sleep (for_seconds : float)
| Cleanup.

(** The part of the board the module can observe or change.  [channels] maps
    every channel configured as an output to the level it drives; a channel
    absent from the map is released (an input), hence not driven.  [calls] is
    the history of library calls, oldest first. *)
Record board : Type := Board {
  warnings : bool;
  bcm_mode : bool;
  channels : gmap Z bool;
  calls : list call
}.

Definition fresh_board : board :=
  {| warnings := true; bcm_mode := false; channels := ∅; calls := [] |}.

(** The control line of [pin_num] is asserted. *)
Definition line_on (b : board) (pin_num : Z) : bool :=
  match channels b !! pin_num with
  | Some level => level
  | None => false
  end.

Inductive exn : Type :=
| LibraryFailure (nth_call : nat)
| RuntimeError (msg : string).

Inductive result (A : Type) : Type :=
| Ok (a : A)
| Raise (e : exn).
Arguments Ok {A} a.
Arguments Raise {A} e.

(** Computations over the board that may raise. *)
Definition M (A : Type) : Type := board → result A * board.

Definition ret {A} (a : A) : M A := fun b => (Ok a, b).

Definition bind {A B} (m : M A) (k : A → M B) : M B :=
  fun b =>
    match m b with
    | (Ok a, b') => k a b'
    | (Raise e, b') => (Raise e, b')
    end.

Notation "m >>> k" := (bind m (fun _ => k))
  (at level 62, right associativity).

(** [try: m finally: f]: [f] runs whatever [m] did; an exception of [m] is
    re-raised afterwards unless [f] raises one of its own. *)
Definition try_finally {A} (m : M A) (f : M unit) : M A :=
  fun b =>
    match m b with
    | (r, b') =>
        match f b' with
        | (Ok _, b'') => (r, b'')
        | (Raise e, b'') => (Raise e, b'')
        end
    end.

Definition log_call (c : call) (b : board) : board :=
  {| warnings := warnings b; bcm_mode := bcm_mode b;
     channels := channels b; calls := calls b ++ [c] |}.

Definition set_warnings (flag : bool) (b : board) : board :=
  {| warnings := flag; bcm_mode := bcm_mode b;
     channels := channels b; calls := calls b |}.

Definition set_bcm (b : board) : board :=
  {| warnings := warnings b; bcm_mode := true;
     channels := channels b; calls := calls b |}.

Definition set_channels (chs : gmap Z bool) (b : board) : board :=
  {| warnings := warnings b; bcm_mode := bcm_mode b;
     channels := chs; calls := calls b |}.

Section Library.

(** Which library calls fail: [raises n] tells whether the call issued
    when [n] calls were already made raises instead of taking effect. *)
Variable raises : nat → bool.

(** A library call is recorded, then either fails or takes effect. *)
Definition invoke (c : call) (effect : board → result unit * board)
  : M unit :=
  fun b =>
    let n := length (calls b) in
    let b' := log_call c b in
    if raises n then (Raise (LibraryFailure n), b') else effect b'.

Definition GPIO_setwarnings (flag : bool) : M unit :=
  invoke (Setwarnings flag) (fun b => (Ok tt, set_warnings flag b)).

Definition GPIO_setmode_BCM : M unit :=
  invoke SetmodeBCM (fun b => (Ok tt, set_bcm b)).

(** [GPIO.setup(pin_num, GPIO.OUT)]: the channel becomes an output,
    driving low. *)
Definition GPIO_setup_OUT (pin_num : Z) : M unit :=
  invoke (SetupOut pin_num)
    (fun b => (Ok tt, set_channels (<[pin_num := false]> (channels b)) b)).

(** [GPIO.output(pin_num, level)]: only for a channel set up as output. *)
Definition GPIO_output (pin_num : Z) (level : bool) : M unit :=
  invoke (Output pin_num level)
    (fun b =>
       match channels b !! pin_num with
       | Some _ =>
           (Ok tt, set_channels (<[pin_num := level]> (channels b)) b)
       | None =>
           (Raise (RuntimeError "The GPIO channel has not been set up as an OUTPUT"), b)
       end).

Definition sleep (for_seconds : float) : M unit :=
  invoke (Sleep for_seconds) (fun b => (Ok tt, b)).

(** [GPIO.cleanup()]: every channel this program set up is released. *)
Definition GPIO_cleanup : M unit :=
  invoke Cleanup (fun b => (Ok tt, set_channels ∅ b)).

(** The closure [pulse_pin] that [pin_pulser] yields. *)
Definition pulse_pin (pin_num : Z) (for_seconds : float) : M unit :=
  GPIO_output pin_num true >>>
  sleep for_seconds >>>
  GPIO_output pin_num false.

(** [with pin_pulser(pin_num) as pulse_pin: body(pulse_pin)].  The
    generator runs up to its [yield] inside the [try], the body of the
    [with] statement runs at the [yield], and the [finally] clause runs
    when either of them is left, normally or by an exception. *)
Definition pin_pulser {A} (pin_num : Z) (body : (float → M unit) → M A)
  : M A :=
  try_finally
    (GPIO_setwarnings false >>>
     GPIO_setmode_BCM >>>
     GPIO_setup_OUT pin_num >>>
     body (pulse_pin pin_num))
    GPIO_cleanup.

(** [with pin_pulser(pin_num) as pulse_pin: pulse_pin(for_seconds)], the
    way both scripts use the actuator. *)
Definition pulse_once (pin_num : Z) (for_seconds : float) : M unit :=
  pin_pulser pin_num (fun pulse_pin => pulse_pin for_seconds).

End Library.

Definition no_failure : nat → bool := fun _ => false.

(** The failure plan in which exactly the call number [k] raises. *)
Definition fails_at (k : nat) : nat → bool := fun n => Nat.eqb n k.

End PulseGpioPin.

(** ** router_rebooter.py *)

Module RouterRebooter.

Definition PING_INTERFACE : string := "wlan0".
Definition PING_DESTINATIONS : list string := ["1.1.1.1"; "4.2.2.2"; "8.8.8.8"].
Definition PING_INTERVAL : float := 15%float.
Definition MIN_PING_INTERVAL : float := 1%float.
Definition POST_REBOOT_INTERVAL : float := (5 * 60)%float.
Definition REBOOT_LIMIT : Z := 3.
Definition POST_REBOOT_LIMIT_INTERVAL : float := (3 * 60 * 60)%float.

Definition RELAY_GPIO_PIN : Z := 21.
Definition PULSE_FOR_SECONDS : float := 2%float.

(** The configuration options: the namespace [argparse] returns, which the
    script unpacks into the keyword arguments of [__init__], which copies
    them field by field into [self]. *)
Record config : Type := Config {
  interface : string;
  ping_interval : float;
  post_reboot_interval : float;
  reboot_limit : Z;
  post_reboot_limit_interval : float;
  relay_gpio_pin : Z;
  pulse_for_seconds : float
}.

(** The defaults of the keyword arguments of [__init__] and of the parser. *)
Definition default_config : config :=
  {| interface := PING_INTERFACE;
     ping_interval := PING_INTERVAL;
     post_reboot_interval := POST_REBOOT_INTERVAL;
     reboot_limit := REBOOT_LIMIT;
     post_reboot_limit_interval := POST_REBOOT_LIMIT_INTERVAL;
     relay_gpio_pin := RELAY_GPIO_PIN;
     pulse_for_seconds := PULSE_FOR_SECONDS |}.

(** [--reboot-limit limit] on top of the other options. *)
Definition with_reboot_limit (limit : Z) (c : config) : config :=
  {| interface := interface c;
     ping_interval := ping_interval c;
     post_reboot_interval := post_reboot_interval c;
     reboot_limit := limit;
     post_reboot_limit_interval := post_reboot_limit_interval c;
     relay_gpio_pin := relay_gpio_pin c;
     pulse_for_seconds := pulse_for_seconds c |}.

(** The internal state while running the main loop. *)
Record state : Type := State {
  reboot_count : Z;
  reboots_reached_limit : bool
}.

(** The state [__init__] sets up. *)
Definition initial_state : state :=
  {| reboot_count := 0; reboots_reached_limit := false |}.

(** The lines passed to [log], by their format string. *)
Inductive message : Type :=
| InterfaceNotUp (interface : string)
    (* Interface {} doesn't exist or isn't up. Check ifconfig -a output. *)
| Exiting                               (* Exiting. *)
| Started                               (* Router-rebooter started successfully. *)
| FirstPingIn (seconds : float)         (* First ping will be sent in {} seconds. *)
| NetworkBackUp                         (* Network is back up. *)
| ReachedLimit (limit : Z)              (* Reached reboot limit of {} attempts. *)
| SleepingFor (seconds : float)         (* Sleeping for {} seconds. *)
| NetworkDown (pin : Z)                 (* Network appears down. Pulsing GPIO pin {}. *)
| RebootAttempt (count : Z).            (* This is reboot attempt {}. *)

(** What the program does to the outside world.  [Pulse pin seconds] is the
    statement [with pin_pulser(pin) as pulse_pin: pulse_pin(seconds)], that
    is [PulseGpioPin.pulse_once]; [Usage msg] is the text [parser.error(msg)]
    prints on stderr. *)
Inductive event : Type :=
| Log (m : message)
| Sleep (seconds : float)
| Pulse (pin : Z) (seconds : float)
| Usage (msg : string).

Definition is_pulse (e : event) : bool :=
  match e with Pulse _ _ => true | _ => false end.

(** How many times a trace pulses the relay. *)
Definition pulses (trace : list event) : nat := length (filter is_pulse trace).

(** What [subprocess.run(..., capture_output=True)] returns, as far as the
    program reads it. *)
Record completed_process : Type := CompletedProcess {
  returncode : Z;
  stdout : string
}.

Definition up_newline : string :=
  String "u"%char (String "p"%char (String "010"%char EmptyString)).

(** [verify_interface], on the outcome of [cat /sys/class/net/<if>/operstate]. *)
Definition verify_interface (proc_result : completed_process) : bool :=
  (returncode proc_result =? 0) && bool_decide (stdout proc_result = up_newline).

(** [any(map(f, xs))]: [map] is lazy and [any] stops at the first true
    element.  Returns the verdict and the elements [f] was applied to. *)
Fixpoint any_map {A} (f : A → bool) (xs : list A) : bool * list A :=
  match xs with
  | [] => (false, [])
  | x :: rest =>
      if f x then (true, [x])
      else let '(found, tried) := any_map f rest in (found, x :: tried)
  end.

(** [is_network_up] for a list of destinations: [ping] is the outcome of
    pinging each destination in this round and [shuffle] the reordering
    [random.shuffle] performs on the copy of the list. *)
Definition network_up_among (dests : list string) (ping : string → bool)
    (shuffle : list string → list string) : bool * list string :=
  let ping_dests := dests in
  let ping_dests := shuffle ping_dests in
  any_map (fun dest => ping dest) ping_dests.

Definition is_network_up (ping : string → bool)
    (shuffle : list string → list string) : bool :=
  fst (network_up_among PING_DESTINATIONS ping shuffle).

(** One iteration of the [while True] loop of [start_main_loop], given the
    verdict [up] of [self.is_network_up()]. *)
Definition loop_body (self : config) (up : bool) (st : state)
  : state * list event :=
  if up then
    if (0 <? reboot_count st) || reboots_reached_limit st then
      ({| reboot_count := 0; reboots_reached_limit := false |},
       [Log NetworkBackUp; Sleep (ping_interval self)])
    else
      (st, [Sleep (ping_interval self)])
  else if (0 <? reboot_limit self) && (reboot_limit self <=? reboot_count st)
  then
    ({| reboot_count := 0; reboots_reached_limit := true |},
     [Log (ReachedLimit (reboot_limit self));
      Log (SleepingFor (post_reboot_limit_interval self));
      Sleep (post_reboot_limit_interval self)])
  else
    ({| reboot_count := reboot_count st + 1;
        reboots_reached_limit := reboots_reached_limit st |},
     [Log (NetworkDown (relay_gpio_pin self));
      Pulse (relay_gpio_pin self) (pulse_for_seconds self);
      Log (RebootAttempt (reboot_count st + 1));
      Sleep (post_reboot_interval self)]).

(** The iterations of the loop for the verdicts observed so far: the state
    reached, and what each iteration did, in order. *)
Fixpoint iterations (self : config) (verdicts : list bool) (st : state)
  : state * list (state * list event) :=
  match verdicts with
  | [] => (st, [])
  | up :: rest =>
      let '(st', trace) := loop_body self up st in
      let '(final, later) := iterations self rest st' in
      (final, (st', trace) :: later)
  end.

Definition final_state (self : config) (verdicts : list bool) (st : state)
  : state :=
  fst (iterations self verdicts st).

Definition trace_of (self : config) (verdicts : list bool) (st : state)
  : list event :=
  concat (map snd (snd (iterations self verdicts st))).

(** How a (prefix of a) run of the program ends: the process has exited with
    a status, or it is still in the loop.  A sleep is recorded as an event
    and taken to return: [Looping] describes the run as far as every
    [time.sleep] so far accepted its duration. *)
Inductive outcome : Type :=
| Exited (status : Z) (trace : list event)
| Looping (st : state) (trace : list event).

(** [start_main_loop] on a fresh instance. *)
Definition start_main_loop (self : config) (operstate : completed_process)
    (verdicts : list bool) : outcome :=
  if negb (verify_interface operstate) then
    Exited 5 [Log (InterfaceNotUp (interface self)); Log Exiting]
  else
    Looping (final_state self verdicts initial_state)
      ([Log Started; Log (FirstPingIn (ping_interval self));
        Sleep (ping_interval self)]
       ++ trace_of self verdicts initial_state).

(** [ArgumentParser.error]: print the message with the usage, [sys.exit(2)]. *)
Definition parser_error (msg : string) : outcome := Exited 2 [Usage msg].

(** The block "Validate some of the arguments": the message of the first
    check that fails, if any. *)
Definition validate (args : config) : option string :=
  if negb ((0 <? relay_gpio_pin args)
           && (relay_gpio_pin args <? PulseGpioPin.MAX_PIN_NUM)) then
    Some "--relay-gpio-pin must be an integer between 1 and 27."
  else if (pulse_for_seconds args <=? 0)%float then
    Some "--pulse-for-seconds must be a positive number."
  else if (ping_interval args <? MIN_PING_INTERVAL)%float then
    Some "--ping-interval should be at least 1.0 (seconds)."
  else if (post_reboot_interval args <? ping_interval args)%float then
    Some "--post-reboot-interval needs to be longer than --ping-interval."
  else if (post_reboot_limit_interval args <? post_reboot_interval args)%float
  then
    Some "--post-reboot-limit-interval needs to be longer than --post-reboot-interval."
  else None.

(** The script body after [parser.parse_args()]. *)
Definition main (args : config) (operstate : completed_process)
    (verdicts : list bool) : outcome :=
  match validate args with
  | Some msg => parser_error msg
  | None => start_main_loop args operstate verdicts
  end.

Definition interface_is_up : completed_process :=
  {| returncode := 0; stdout := up_newline |}.

End RouterRebooter.

(** ** What a trace shows *)

Module Trace.

Import RouterRebooter.

Definition is_sleep (e : event) : bool :=
  match e with Sleep _ => true | _ => false end.

(** How many times a trace sleeps. *)
Definition sleeps (trace : list event) : nat := length (filter is_sleep trace).

Definition is_back_up (e : event) : bool :=
  match e with Log NetworkBackUp => true | _ => false end.

(** How many times a trace logs that the network is back up. *)
Definition back_up_logs (trace : list event) : nat :=
  length (filter is_back_up trace).

(** The numbers of the reboot attempts a trace logs, in order. *)
Definition attempt_numbers (trace : list event) : list Z :=
  omap (λ e, match e with Log (RebootAttempt n) => Some n | _ => None end)
       trace.

(** How many up verdicts of a sequence come right after a down verdict;
    [was_down] tells whether a down verdict precedes the sequence. *)
Fixpoint recoveries (was_down : bool) (verdicts : list bool) : nat :=
  match verdicts with
  | [] => 0
  | up :: rest =>
      ((if up && was_down then 1 else 0) + recoveries (negb up) rest)%nat
  end.

(** The state has something an up verdict would clear. *)
Definition needs_recovery (st : state) : bool :=
  (0 <? reboot_count st) || reboots_reached_limit st.




End Trace.

(** ** Durations *)

Module Durations.

Import RouterRebooter.

(** The float is a number: [x == x] fails for NaN only. *)
Definition is_number (x : float) : bool := (x =? x)%float.

(** The durations among the arguments are numbers. *)
Definition durations_are_numbers (args : config) : bool :=
  is_number (pulse_for_seconds args) && is_number (ping_interval args)
  && is_number (post_reboot_interval args)
  && is_number (post_reboot_limit_interval args).

End Durations.

(** ** The main loop, with the relay on a board *)

Module RebooterOnBoard.

Import PulseGpioPin RouterRebooter.

(** The library calls of one pulse that nothing interrupts. *)
Definition pulse_calls (pin_num : Z) (for_seconds : float) : list call :=
  [Setwarnings false; SetmodeBCM; SetupOut pin_num; Output pin_num true;
   PulseGpioPin.Sleep for_seconds; Output pin_num false; Cleanup].

Section WithFailures.

Variable raises : nat → bool.

(** One iteration of the loop of [start_main_loop] with the [with
    pin_pulser(...)] statement run on the board: an exception of the pulse
    leaves the loop before the counter is incremented. *)
Definition loop_body_on_board (self : config) (up : bool) (st : state)
    (b : board) : result state * board :=
  if up then
    if (0 <? reboot_count st) || reboots_reached_limit st then
      (Ok {| reboot_count := 0; reboots_reached_limit := false |}, b)
    else (Ok st, b)
  else if (0 <? reboot_limit self) && (reboot_limit self <=? reboot_count st)
  then (Ok {| reboot_count := 0; reboots_reached_limit := true |}, b)
  else
    match pulse_once raises (relay_gpio_pin self) (pulse_for_seconds self) b
    with
    | (Ok _, b') =>
        (Ok {| reboot_count := reboot_count st + 1;
               reboots_reached_limit := reboots_reached_limit st |}, b')
    | (Raise e, b') => (Raise e, b')
    end.

(** The iterations for the verdicts observed so far; nothing catches an
    exception, so the first one ends the run. *)
Fixpoint main_loop_on_board (self : config) (verdicts : list bool)
    (st : state) (b : board) : result state * board :=
  match verdicts with
  | [] => (Ok st, b)
  | up :: rest =>
      match loop_body_on_board self up st b with
      | (Ok st', b') => main_loop_on_board self rest st' b'
      | (Raise e, b') => (Raise e, b')
      end
  end.

End WithFailures.

End RebooterOnBoard.

(** ** pulse_gpio_pin.py run as a script *)

Module PulseGpioPinScript.

Import PulseGpioPin.

(** What the script writes to stderr, by its text. *)
Inductive stderr_line : Type :=
| UsageDoc                    (* the formatted __doc__ and two newlines *)
| FatalNotInteger             (* FATAL: PIN_NUM is not an integer *)
| FatalPinRange               (* FATAL: PIN_NUM must be an integer between 1 and 27 *)
| FatalPulseSeconds           (* FATAL: PULSE_FOR_SECONDS should be a positive number *)
| WarnUnused (args : string). (* WARN: Unused arguments {} *)

(** How the script ends: [sys.exit(code)], or the [with] statement was run
    and returned or raised. *)
Inductive outcome : Type :=
| Exit (code : Z) (err : list stderr_line) (b : board)
| Pulsed (err : list stderr_line) (r : result unit) (b : board).

Definition print_usage_and_exit (err : list stderr_line) (exit_code : Z)
    (b : board) : outcome :=
  Exit exit_code (err ++ [UsageDoc]) b.

Section Builtins.

(** The builtins [int] and [float] on a string: [None] when they raise
    [ValueError]. *)
Variable int_of : string → option Z.
Variable float_of : string → option float.
Variable raises : nat → bool.

(** [PULSE_FOR_SECONDS]: the body of the second [try], [None] when it
    raises. *)
Definition pulse_seconds_of (arg : string) : option float :=
  match float_of arg with
  | Some pulse_for_seconds =>
      if (pulse_for_seconds <=? 0)%float then None else Some pulse_for_seconds
  | None => None
  end.

(** The block under [if __name__ == "__main__"], for [sys.argv = argv]. *)
Definition main (argv : list string) (b : board) : outcome :=
  if bool_decide (length argv = 1%nat)
     || bool_decide ("-h" ∈ argv) || bool_decide ("--help" ∈ argv)
  then print_usage_and_exit [] 1 b
  else
    match argv !! 1%nat ≫= int_of with
    | None => print_usage_and_exit [FatalNotInteger] 2 b
    | Some pin_num =>
        if (pin_num <? 1) || (MAX_PIN_NUM <? pin_num) then
          print_usage_and_exit [FatalPinRange] 3 b
        else
          match
            (if bool_decide (2 < length argv)%nat
             then argv !! 2%nat ≫= pulse_seconds_of
             else Some DEFAULT_PULSE_SECONDS)
          with
          | None => print_usage_and_exit [FatalPulseSeconds] 4 b
          | Some pulse_for_seconds =>
              let err :=
                if bool_decide (3 < length argv)%nat
                then [WarnUnused (String.concat " " (drop 3 argv))]
                else [] in
              let '(r, b') := pulse_once raises pin_num pulse_for_seconds b in
              Pulsed err r b'
          end
    end.

End Builtins.

End PulseGpioPinScript.

(** * Properties *)

Import RouterRebooter.

(** ** The loop, one iteration at a time *)

Section Iterations.

Variable self : config.

Lemma iterations_cons up rest st :
  iterations self (up :: rest) st =
  (final_state self rest (loop_body self up st).1,
   loop_body self up st
     :: (iterations self rest (loop_body self up st).1).2).
Proof.
  unfold final_state. simpl.
  destruct (loop_body self up st) as [st' trace]; simpl.
  destruct (iterations self rest st'); reflexivity.
Qed.

Lemma final_state_nil st : final_state self [] st = st.
Proof. reflexivity. Qed.

Lemma final_state_cons up rest st :
  final_state self (up :: rest) st =
  final_state self rest (loop_body self up st).1.
Proof. unfold final_state at 1. rewrite iterations_cons. reflexivity. Qed.

Lemma trace_of_nil st : trace_of self [] st = [].
Proof. reflexivity. Qed.

Lemma trace_of_cons up rest st :
  trace_of self (up :: rest) st =
  (loop_body self up st).2 ++ trace_of self rest (loop_body self up st).1.
Proof. unfold trace_of. rewrite iterations_cons. reflexivity. Qed.

(** A property of the state that holds initially and that every iteration
    preserves holds after any number of iterations. *)
Lemma final_state_invariant (P : state → Prop) :
  (∀ up st, P st → P (loop_body self up st).1) →
  ∀ verdicts st, P st → P (final_state self verdicts st).
Proof.
  intros Hstep verdicts.
  induction verdicts as [|up rest IH]; intros st Hst.
  - exact Hst.
  - rewrite final_state_cons. apply IH, Hstep, Hst.
Qed.

(** The three branches of the loop body. *)
Lemma loop_body_up st :
  loop_body self true st =
  if (0 <? reboot_count st) || reboots_reached_limit st then
    ({| reboot_count := 0; reboots_reached_limit := false |},
     [Log NetworkBackUp; Sleep (ping_interval self)])
  else (st, [Sleep (ping_interval self)]).
Proof. reflexivity. Qed.

Lemma loop_body_limit st :
  0 < reboot_limit self → reboot_limit self ≤ reboot_count st →
  loop_body self false st =
  ({| reboot_count := 0; reboots_reached_limit := true |},
   [Log (ReachedLimit (reboot_limit self));
    Log (SleepingFor (post_reboot_limit_interval self));
    Sleep (post_reboot_limit_interval self)]).
Proof.
  intros Hpos Hge. unfold loop_body.
  destruct (Z.ltb_spec 0 (reboot_limit self)); [|lia].
  destruct (Z.leb_spec (reboot_limit self) (reboot_count st)); [|lia].
  reflexivity.
Qed.

Lemma loop_body_reboot st :
  reboot_limit self ≤ 0 ∨ reboot_count st < reboot_limit self →
  loop_body self false st =
  ({| reboot_count := reboot_count st + 1;
      reboots_reached_limit := reboots_reached_limit st |},
   [Log (NetworkDown (relay_gpio_pin self));
    Pulse (relay_gpio_pin self) (pulse_for_seconds self);
    Log (RebootAttempt (reboot_count st + 1));
    Sleep (post_reboot_interval self)]).
Proof.
  intros Hcase. unfold loop_body.
  destruct (Z.ltb_spec 0 (reboot_limit self));
    destruct (Z.leb_spec (reboot_limit self) (reboot_count st));
    simpl; try reflexivity; lia.
Qed.

(** With the limit disabled, the flag of a state stays as it is under
    down verdicts, and is cleared by up verdicts. *)
Lemma no_limit_flag_stays_false up st :
  reboot_limit self ≤ 0 →
  reboots_reached_limit st = false →
  reboots_reached_limit (loop_body self up st).1 = false.
Proof.
  intros Hlim Hflag. destruct up.
  - rewrite loop_body_up.
    destruct ((0 <? reboot_count st) || reboots_reached_limit st);
      simpl; auto.
  - rewrite loop_body_reboot by auto. exact Hflag.
Qed.

Lemma no_limit_pulses verdicts st :
  reboot_limit self ≤ 0 →
  pulses (trace_of self verdicts st) = length (filter negb verdicts).
Proof.
  intros Hlim. revert st.
  induction verdicts as [|up rest IH]; intros st; [reflexivity|].
  rewrite trace_of_cons. unfold pulses in *.
  rewrite filter_app, length_app, IH.
  destruct up.
  - rewrite loop_body_up.
    destruct ((0 <? reboot_count st) || reboots_reached_limit st);
      reflexivity.
  - rewrite loop_body_reboot by auto. reflexivity.
Qed.

End Iterations.

(** A non-positive limit is never looked at again once the guard
    [reboot_limit > 0] has failed: the iteration is that of limit 0. *)
Lemma loop_body_nonpositive_limit (self : config) (limit : Z) up st :
  limit ≤ 0 →
  loop_body (with_reboot_limit limit self) up st =
  loop_body (with_reboot_limit 0 self) up st.
Proof.
  intros Hlim. destruct up; [reflexivity|].
  rewrite !loop_body_reboot by (simpl; lia). reflexivity.
Qed.

Lemma iterations_nonpositive_limit (self : config) (limit : Z) verdicts st :
  limit ≤ 0 →
  iterations (with_reboot_limit limit self) verdicts st =
  iterations (with_reboot_limit 0 self) verdicts st.
Proof.
  intros Hlim. revert st.
  induction verdicts as [|up rest IH]; intros st; [reflexivity|].
  rewrite !iterations_cons. unfold final_state.
  rewrite (loop_body_nonpositive_limit self limit) by done.
  rewrite IH. reflexivity.
Qed.

(** No check of [validate] reads [reboot_limit]. *)
Lemma validate_ignores_reboot_limit (args : config) (limit : Z) :
  validate (with_reboot_limit limit args) = validate args.
Proof. reflexivity. Qed.

(** ** The retry policy *)

(** C1. With a reboot limit of 3 and starting from the baseline state, each
    of the first three consecutive down verdicts pulses the relay exactly
    once and brings the counter to 1, 2 and 3; the fourth pulses nothing,
    sets the limit flag, resets the counter to 0 and sleeps for
    [post_reboot_limit_interval]. *)
Theorem four_downs_with_limit_three (self : config) :
  reboot_limit self = 3 →
  (iterations self [false; false; false; false] initial_state).2 =
    [ ({| reboot_count := 1; reboots_reached_limit := false |},
       [Log (NetworkDown (relay_gpio_pin self));
        Pulse (relay_gpio_pin self) (pulse_for_seconds self);
        Log (RebootAttempt 1);
        Sleep (post_reboot_interval self)]);
      ({| reboot_count := 2; reboots_reached_limit := false |},
       [Log (NetworkDown (relay_gpio_pin self));
        Pulse (relay_gpio_pin self) (pulse_for_seconds self);
        Log (RebootAttempt 2);
        Sleep (post_reboot_interval self)]);
      ({| reboot_count := 3; reboots_reached_limit := false |},
       [Log (NetworkDown (relay_gpio_pin self));
        Pulse (relay_gpio_pin self) (pulse_for_seconds self);
        Log (RebootAttempt 3);
        Sleep (post_reboot_interval self)]);
      ({| reboot_count := 0; reboots_reached_limit := true |},
       [Log (ReachedLimit 3);
        Log (SleepingFor (post_reboot_limit_interval self));
        Sleep (post_reboot_limit_interval self)]) ]
  ∧ map (λ it, pulses it.2)
        (iterations self [false; false; false; false] initial_state).2
    = [1; 1; 1; 0]%nat.
Proof.
  intros Hlim.
  match goal with
  | |- ?its = ?expected ∧ _ =>
      assert (Hits : its = expected); [|split; [exact Hits|]]
  end.
  - rewrite iterations_cons; cbn [snd].
    rewrite (loop_body_reboot self initial_state) by (simpl; lia).
    cbn [fst reboot_count reboots_reached_limit initial_state Z.add Pos.add].
    rewrite iterations_cons; cbn [snd].
    rewrite loop_body_reboot by (simpl; lia).
    cbn [fst reboot_count reboots_reached_limit Z.add Pos.add Pos.succ].
    rewrite iterations_cons; cbn [snd].
    rewrite loop_body_reboot by (simpl; lia).
    cbn [fst reboot_count reboots_reached_limit Z.add Pos.add Pos.succ].
    rewrite iterations_cons; cbn [snd].
    rewrite loop_body_limit by (simpl; lia).
    rewrite Hlim. reflexivity.
  - rewrite Hits. reflexivity.
Qed.

Lemma four_downs_with_limit_three_default :
  reboot_limit default_config = 3
  ∧ (iterations default_config [false; false; false; false]
       initial_state).2 =
    [ ({| reboot_count := 1; reboots_reached_limit := false |},
       [Log (NetworkDown 21); Pulse 21 2; Log (RebootAttempt 1);
        Sleep POST_REBOOT_INTERVAL]);
      ({| reboot_count := 2; reboots_reached_limit := false |},
       [Log (NetworkDown 21); Pulse 21 2; Log (RebootAttempt 2);
        Sleep POST_REBOOT_INTERVAL]);
      ({| reboot_count := 3; reboots_reached_limit := false |},
       [Log (NetworkDown 21); Pulse 21 2; Log (RebootAttempt 3);
        Sleep POST_REBOOT_INTERVAL]);
      ({| reboot_count := 0; reboots_reached_limit := true |},
       [Log (ReachedLimit 3); Log (SleepingFor POST_REBOOT_LIMIT_INTERVAL);
        Sleep POST_REBOOT_LIMIT_INTERVAL]) ]
  ∧ map (λ it, pulses it.2)
        (iterations default_config [false; false; false; false]
           initial_state).2
    = [1; 1; 1; 0]%nat.
Proof.
  split; [reflexivity|].
  apply (four_downs_with_limit_three default_config). reflexivity.
Defined.


(** With a positive limit, an iteration keeps the counter between 0 and the
    limit: at the limit, a down verdict takes the backoff branch. *)
Lemma loop_body_preserves_bound (self : config) up st :
  0 < reboot_limit self →
  0 ≤ reboot_count st ≤ reboot_limit self →
  0 ≤ reboot_count (loop_body self up st).1 ≤ reboot_limit self.
Proof.
  intros Hpos Hst. destruct up.
  - rewrite loop_body_up.
    destruct ((0 <? reboot_count st) || reboots_reached_limit st);
      simpl; lia.
  - destruct (Z.le_gt_cases (reboot_limit self) (reboot_count st)).
    + rewrite loop_body_limit by done. simpl. lia.
    + rewrite loop_body_reboot by lia. simpl. lia.
Qed.

(** C5. With a positive limit, the counter is between 0 and the limit in
    every state the loop reaches from a zero counter, and every iteration
    preserves these bounds. *)
Theorem reboot_count_bounded (self : config) verdicts flag :
  0 < reboot_limit self →
  let st := final_state self verdicts
              {| reboot_count := 0; reboots_reached_limit := flag |} in
  0 ≤ reboot_count st ≤ reboot_limit self
  ∧ ∀ up, 0 ≤ reboot_count (loop_body self up st).1 ≤ reboot_limit self.
Proof.
  intros Hpos st.
  assert (Hst : 0 ≤ reboot_count st ≤ reboot_limit self).
  { apply (final_state_invariant self
             (λ st, 0 ≤ reboot_count st ≤ reboot_limit self)); [|simpl; lia].
    intros up st0. apply loop_body_preserves_bound, Hpos. }
  split; [exact Hst|].
  intros up. apply loop_body_preserves_bound; assumption.
Qed.

Lemma reboot_count_bounded_seven_downs :
  let st := final_state default_config
              [false; false; false; false; false; false; false]
              {| reboot_count := 0; reboots_reached_limit := false |} in
  0 ≤ reboot_count st ≤ reboot_limit default_config
  ∧ ∀ up, 0 ≤ reboot_count (loop_body default_config up st).1
          ≤ reboot_limit default_config.
Proof.
  apply (reboot_count_bounded default_config
           [false; false; false; false; false; false; false] false).
  simpl. unfold REBOOT_LIMIT. lia.
Defined.

(** C6. With a limit of 0 the backoff branch is never taken: in every state
    the loop reaches from the initial one the flag is unset and a down
    verdict pulses the relay once, counts the attempt and sleeps for
    [post_reboot_interval]; a run has as many pulses as down verdicts. *)
Theorem zero_limit_always_reboots (self : config) verdicts :
  reboot_limit self = 0 →
  let st := final_state self verdicts initial_state in
  reboots_reached_limit st = false
  ∧ loop_body self false st =
      ({| reboot_count := reboot_count st + 1;
          reboots_reached_limit := false |},
       [Log (NetworkDown (relay_gpio_pin self));
        Pulse (relay_gpio_pin self) (pulse_for_seconds self);
        Log (RebootAttempt (reboot_count st + 1));
        Sleep (post_reboot_interval self)])
  ∧ pulses (trace_of self verdicts initial_state)
    = length (filter negb verdicts).
Proof.
  intros Hlim.
  assert (Hflag : reboots_reached_limit
                    (final_state self verdicts initial_state) = false).
  { apply (final_state_invariant self
             (λ st, reboots_reached_limit st = false)); [|reflexivity].
    intros up st. apply no_limit_flag_stays_false. lia. }
  cbn zeta. split; [exact Hflag|]. split.
  - rewrite loop_body_reboot by lia. rewrite Hflag. reflexivity.
  - apply no_limit_pulses. lia.
Qed.

Lemma zero_limit_always_reboots_five_downs :
  let self := with_reboot_limit 0 default_config in
  let st := final_state self [false; false; false; false; false]
              initial_state in
  reboots_reached_limit st = false
  ∧ loop_body self false st =
      ({| reboot_count := reboot_count st + 1;
          reboots_reached_limit := false |},
       [Log (NetworkDown (relay_gpio_pin self));
        Pulse (relay_gpio_pin self) (pulse_for_seconds self);
        Log (RebootAttempt (reboot_count st + 1));
        Sleep (post_reboot_interval self)])
  ∧ pulses (trace_of self [false; false; false; false; false] initial_state)
    = length (filter negb [false; false; false; false; false]).
Proof.
  apply (zero_limit_always_reboots (with_reboot_limit 0 default_config)
           [false; false; false; false; false]).
  reflexivity.
Defined.

(** C7. In a state with a positive counter or the flag set, an up verdict
    clears both and logs the recovery; nothing is pulsed and the loop sleeps
    for [ping_interval]. *)
Theorem up_verdict_recovers (self : config) st :
  0 < reboot_count st ∨ reboots_reached_limit st = true →
  loop_body self true st =
    ({| reboot_count := 0; reboots_reached_limit := false |},
     [Log NetworkBackUp; Sleep (ping_interval self)])
  ∧ pulses (loop_body self true st).2 = 0%nat.
Proof.
  intros Hst. rewrite loop_body_up.
  assert ((0 <? reboot_count st) || reboots_reached_limit st = true) as ->.
  { destruct Hst as [Hpos | ->]; [|apply orb_true_r].
    apply orb_true_iff. left. apply Z.ltb_lt, Hpos. }
  split; reflexivity.
Qed.

Lemma up_verdict_recovers_after_two_reboots :
  loop_body default_config true
    {| reboot_count := 2; reboots_reached_limit := false |} =
    ({| reboot_count := 0; reboots_reached_limit := false |},
     [Log NetworkBackUp; Sleep (ping_interval default_config)])
  ∧ pulses (loop_body default_config true
              {| reboot_count := 2; reboots_reached_limit := false |}).2
    = 0%nat.
Proof.
  apply (up_verdict_recovers default_config
           {| reboot_count := 2; reboots_reached_limit := false |}).
  left. simpl. lia.
Defined.

(** C8. From the baseline state, any number of consecutive up verdicts
    leaves the counter at 0 and the flag unset; each of these iterations
    only sleeps for [ping_interval]. *)
Theorem up_verdicts_keep_baseline (self : config) (n : nat) :
  iterations self (replicate n true) initial_state =
  (initial_state, replicate n (initial_state, [Sleep (ping_interval self)])).
Proof.
  induction n as [|n IH]; [reflexivity|].
  cbn [replicate]. rewrite iterations_cons. unfold final_state.
  rewrite loop_body_up. cbn [fst snd initial_state reboot_count
    reboots_reached_limit Z.ltb Z.compare orb].
  fold initial_state. rewrite IH. reflexivity.
Qed.

(** C10. A non-positive reboot limit passes validation like any other (no
    check reads it) and the program then runs exactly as with a limit of 0:
    the flag is never set, and every down verdict pulses the relay. *)
Theorem nonpositive_limit_as_zero (args : config) (limit : Z)
    operstate verdicts :
  limit ≤ 0 →
  let self := with_reboot_limit limit args in
  let st := final_state self verdicts initial_state in
  validate self = validate args
  ∧ validate (with_reboot_limit limit default_config) = None
  ∧ main self operstate verdicts
    = main (with_reboot_limit 0 args) operstate verdicts
  ∧ reboots_reached_limit st = false
  ∧ (loop_body self false st).1 =
      {| reboot_count := reboot_count st + 1;
         reboots_reached_limit := false |}
  ∧ pulses (loop_body self false st).2 = 1%nat
  ∧ pulses (trace_of self verdicts initial_state)
    = length (filter negb verdicts).
Proof.
  intros Hlim self st.
  assert (Hflag : reboots_reached_limit st = false).
  { apply (final_state_invariant self
             (λ st, reboots_reached_limit st = false)); [|reflexivity].
    intros up st0. apply no_limit_flag_stays_false. exact Hlim. }
  split; [apply validate_ignores_reboot_limit|].
  split; [reflexivity|].
  subst st self. repeat split.
  - unfold main. rewrite !validate_ignores_reboot_limit.
    destruct (validate args); [reflexivity|].
    unfold start_main_loop, final_state, trace_of.
    rewrite (iterations_nonpositive_limit args limit) by done.
    reflexivity.
  - exact Hflag.
  - rewrite loop_body_reboot by auto. rewrite Hflag. reflexivity.
  - rewrite loop_body_reboot by auto. reflexivity.
  - apply no_limit_pulses. exact Hlim.
Qed.

Lemma nonpositive_limit_as_zero_minus_two :
  let self := with_reboot_limit (-2) default_config in
  let st := final_state self [false; true; false; false] initial_state in
  validate self = validate default_config
  ∧ validate (with_reboot_limit (-2) default_config) = None
  ∧ main self interface_is_up [false; true; false; false]
    = main (with_reboot_limit 0 default_config) interface_is_up
        [false; true; false; false]
  ∧ reboots_reached_limit st = false
  ∧ (loop_body self false st).1 =
      {| reboot_count := reboot_count st + 1;
         reboots_reached_limit := false |}
  ∧ pulses (loop_body self false st).2 = 1%nat
  ∧ pulses (trace_of self [false; true; false; false] initial_state)
    = length (filter negb [false; true; false; false]).
Proof.
  apply (nonpositive_limit_as_zero default_config (-2) interface_is_up
           [false; true; false; false]).
  lia.
Defined.

(** ** Validation of the arguments *)

(** C3, as the specification has it, fails: with [--reboot-limit -1] and the
    other options at their defaults nothing is rejected, and the program
    enters the loop. *)
Lemma negative_limit_enters_loop :
  reboot_limit (with_reboot_limit (-1) default_config) < 0
  ∧ validate (with_reboot_limit (-1) default_config) = None
  ∧ main (with_reboot_limit (-1) default_config) interface_is_up [false] =
      Looping {| reboot_count := 1; reboots_reached_limit := false |}
        [Log Started; Log (FirstPingIn 15); Sleep 15;
         Log (NetworkDown 21); Pulse 21 2; Log (RebootAttempt 1);
         Sleep 300].
Proof. repeat split. Qed.

(** ** The verdict of a round of pings *)

Section AnyMap.

Context {A : Type} (f : A → bool).

Lemma any_map_true (xs : list A) :
  (any_map f xs).1 = true ↔ ∃ x, x ∈ xs ∧ f x = true.
Proof.
  induction xs as [|x rest IH]; simpl.
  - split; [discriminate|]. intros (x & Hx & _). inversion Hx.
  - destruct (f x) eqn:Hfx; simpl.
    + split; [|reflexivity]. intros _. exists x. split; [left|exact Hfx].
    + destruct (any_map f rest) as [found tried]; simpl in *.
      rewrite IH. split.
      * intros (y & Hy & Hfy). exists y. split; [right; exact Hy|exact Hfy].
      * intros (y & Hy & Hfy). exists y. split; [|exact Hfy].
        apply elem_of_cons in Hy as [-> | Hy]; [congruence|exact Hy].
Qed.

Lemma any_map_false (xs : list A) :
  (any_map f xs).1 = false ↔ ∀ x, x ∈ xs → f x = false.
Proof.
  rewrite <- not_true_iff_false, any_map_true. split.
  - intros Hnone x Hx. apply not_true_iff_false. intros Hfx.
    apply Hnone. exists x. split; assumption.
  - intros Hall (x & Hx & Hfx). rewrite (Hall x Hx) in Hfx. discriminate.
Qed.

(** The elements tried are an initial segment of the list: evaluation
    stops at the first success, and nothing is tried twice. *)
Lemma any_map_tried_prefix (xs : list A) :
  (any_map f xs).2 `prefix_of` xs.
Proof.
  induction xs as [|x rest IH]; simpl; [done|].
  destruct (f x).
  - simpl. by apply prefix_cons, prefix_nil.
  - destruct (any_map f rest) as [found tried]; simpl in *.
    by apply prefix_cons.
Qed.

End AnyMap.

(** C4. Whatever the outcome of pinging each destination and whatever order
    the shuffle puts the destinations in, the network is reported up exactly
    when some destination answers, and down exactly when none does. *)
Theorem network_up_iff_some_ping_succeeds (dests : list string)
    (ping : string → bool) (shuffle : list string → list string) :
  shuffle dests ≡ₚ dests →
  ((network_up_among dests ping shuffle).1 = true
     ↔ ∃ dest, dest ∈ dests ∧ ping dest = true)
  ∧ ((network_up_among dests ping shuffle).1 = false
     ↔ ∀ dest, dest ∈ dests → ping dest = false).
Proof.
  intros Hperm. unfold network_up_among.
  rewrite any_map_true, any_map_false. split.
  - split; intros (dest & Hdest & Hping); exists dest;
      (split; [|exact Hping]).
    + by rewrite <- Hperm.
    + by rewrite Hperm.
  - split; intros Hall dest Hdest; apply Hall.
    + by rewrite Hperm.
    + by rewrite <- Hperm.
Qed.

Lemma network_up_iff_some_ping_succeeds_reversed :
  let ping := λ dest : string, bool_decide (dest = "8.8.8.8") in
  ((network_up_among PING_DESTINATIONS ping reverse).1 = true
     ↔ ∃ dest, dest ∈ PING_DESTINATIONS ∧ ping dest = true)
  ∧ ((network_up_among PING_DESTINATIONS ping reverse).1 = false
     ↔ ∀ dest, dest ∈ PING_DESTINATIONS → ping dest = false).
Proof.
  apply (network_up_iff_some_ping_succeeds PING_DESTINATIONS
           (λ dest : string, bool_decide (dest = "8.8.8.8")) reverse).
  apply reverse_Permutation.
Defined.

(** [is_network_up] is the verdict for [PING_DESTINATIONS]. *)
Lemma is_network_up_iff ping shuffle :
  shuffle PING_DESTINATIONS ≡ₚ PING_DESTINATIONS →
  is_network_up ping shuffle = true ↔
  ping "1.1.1.1" = true ∨ ping "4.2.2.2" = true ∨ ping "8.8.8.8" = true.
Proof.
  intros Hperm. unfold is_network_up, network_up_among.
  rewrite any_map_true. setoid_rewrite Hperm.
  unfold PING_DESTINATIONS. split.
  - intros (dest & Hdest & Hping).
    repeat (apply elem_of_cons in Hdest as [-> | Hdest]; [tauto|]).
    inversion Hdest.
  - intros [H | [H | H]]; eexists; (split; [|exact H]);
      repeat constructor.
Qed.

(** ** The actuator *)

Module PulseGpioPinFacts.

Import PulseGpioPin.

Lemma try_finally_cleanup {A} raises (m : M A) b :
  let '(r, b') := try_finally m (GPIO_cleanup raises) b in
  last (calls b') = Some Cleanup
  ∧ (channels b' = ∅
     ∨ r = Raise (LibraryFailure (pred (length (calls b'))))).
Proof.
  unfold try_finally, GPIO_cleanup, invoke.
  destruct (m b) as [r b1].
  destruct (raises (length (calls b1))); simpl.
  - split; [apply last_snoc|]. right.
    rewrite length_app, Nat.add_1_r. reflexivity.
  - split; [apply last_snoc|]. left. reflexivity.
Qed.

Lemma line_on_released b pin_num : channels b = ∅ → line_on b pin_num = false.
Proof. unfold line_on. intros ->. rewrite lookup_empty. reflexivity. Qed.

(** Without a failure, the pulse is the seven calls in order. *)
Lemma pulse_once_normal pin_num for_seconds b :
  pulse_once no_failure pin_num for_seconds b =
  (Ok tt,
   {| warnings := false; bcm_mode := true; channels := ∅;
      calls := calls b ++
        [Setwarnings false; SetmodeBCM; SetupOut pin_num;
         Output pin_num true; Sleep for_seconds; Output pin_num false;
         Cleanup] |}).
Proof.
  destruct b as [w m chs cs].
  unfold pulse_once, pin_pulser, try_finally, pulse_pin, bind,
    GPIO_setwarnings, GPIO_setmode_BCM, GPIO_setup_OUT, GPIO_output, sleep,
    GPIO_cleanup, invoke, no_failure.
  cbn [log_call set_warnings set_bcm set_channels
       warnings bcm_mode channels calls].
  rewrite lookup_insert_eq.
  cbn [log_call set_warnings set_bcm set_channels
       warnings bcm_mode channels calls].
  rewrite lookup_insert_eq.
  cbn [log_call set_warnings set_bcm set_channels
       warnings bcm_mode channels calls].
  cbv [log_call set_warnings set_bcm set_channels
       warnings bcm_mode channels calls].
  rewrite <- !(assoc_L (++)). reflexivity.
Qed.

(** While the program sleeps, the line is asserted. *)
Lemma line_on_during_sleep pin_num b :
  let m := GPIO_setup_OUT no_failure pin_num >>>
           GPIO_output no_failure pin_num true in
  (m b).1 = Ok tt ∧ line_on (m b).2 pin_num = true.
Proof.
  destruct b as [w m chs cs].
  unfold bind, GPIO_setup_OUT, GPIO_output, invoke, no_failure, line_on.
  cbn [log_call set_channels warnings bcm_mode channels calls].
  rewrite lookup_insert_eq.
  cbn [log_call set_channels warnings bcm_mode channels calls fst snd].
  rewrite lookup_insert_eq. split; reflexivity.
Qed.

(** C9. The pulse leaves the control line off on normal return and on
    failure.  Without a failure the line is set up, driven on, held for the
    duration, driven off and released.  Whatever fails, and whatever the
    body of the [with] statement is, the last call made is the cleanup, and
    the line is released unless that very call is the one that failed. *)
Theorem pulse_leaves_line_off {A} (raises : nat → bool) (pin_num : Z)
    (for_seconds : float) (body : (float → M unit) → M A) (b : board) :
  pulse_once no_failure pin_num for_seconds b =
    (Ok tt,
     {| warnings := false; bcm_mode := true; channels := ∅;
        calls := calls b ++
          [Setwarnings false; SetmodeBCM; SetupOut pin_num;
           Output pin_num true; Sleep for_seconds; Output pin_num false;
           Cleanup] |})
  ∧ line_on (pulse_once no_failure pin_num for_seconds b).2 pin_num = false
  ∧ (let '(r, b') := pulse_once raises pin_num for_seconds b in
     last (calls b') = Some Cleanup
     ∧ (line_on b' pin_num = false
        ∨ r = Raise (LibraryFailure (pred (length (calls b'))))))
  ∧ (let '(r, b') := pin_pulser raises pin_num body b in
     last (calls b') = Some Cleanup
     ∧ (line_on b' pin_num = false
        ∨ r = Raise (LibraryFailure (pred (length (calls b')))))).
Proof.
  split; [apply pulse_once_normal|].
  split; [rewrite pulse_once_normal; apply line_on_released; reflexivity|].
  split.
  - unfold pulse_once, pin_pulser.
    match goal with
    | |- context [try_finally ?m _ _] =>
        pose proof (try_finally_cleanup raises m b) as Hfin
    end.
    destruct (try_finally _ _ b) as [r b'].
    destruct Hfin as [Hlast [Hrel | Hfail]]; (split; [exact Hlast|]).
    + left. apply line_on_released, Hrel.
    + right. exact Hfail.
  - unfold pin_pulser.
    match goal with
    | |- context [try_finally ?m _ _] =>
        pose proof (try_finally_cleanup raises m b) as Hfin
    end.
    destruct (try_finally _ _ b) as [r b'].
    destruct Hfin as [Hlast [Hrel | Hfail]]; (split; [exact Hlast|]).
    + left. apply line_on_released, Hrel.
    + right. exact Hfail.
Qed.

(** The sleep is interrupted while the line is on: the line is released. *)
Example pulse_interrupted_during_sleep :
  pulse_once (fails_at 4) 21 2 fresh_board =
  (Raise (LibraryFailure 4),
   {| warnings := false; bcm_mode := true; channels := ∅;
      calls := [Setwarnings false; SetmodeBCM; SetupOut 21; Output 21 true;
                Sleep 2; Cleanup] |}).
Proof. reflexivity. Qed.

End PulseGpioPinFacts.

(** ** Runs of the loop *)

Section Runs.

Import Trace.

Variable self : config.

Lemma iterations_app verdicts later st :
  iterations self (verdicts ++ later) st =
  (final_state self later (final_state self verdicts st),
   (iterations self verdicts st).2
     ++ (iterations self later (final_state self verdicts st)).2).
Proof.
  revert st. induction verdicts as [|up rest IH]; intros st.
  - unfold final_state. cbn [iterations app fst snd].
    destruct (iterations self later st); reflexivity.
  - cbn [app]. rewrite !iterations_cons, final_state_cons.
    unfold final_state at 1. rewrite !IH. reflexivity.
Qed.

Lemma final_state_app verdicts later st :
  final_state self (verdicts ++ later) st =
  final_state self later (final_state self verdicts st).
Proof. unfold final_state at 1. rewrite iterations_app. reflexivity. Qed.

Lemma trace_of_app verdicts later st :
  trace_of self (verdicts ++ later) st =
  trace_of self verdicts st
    ++ trace_of self later (final_state self verdicts st).
Proof.
  unfold trace_of. rewrite iterations_app. cbn [snd].
  rewrite map_app, concat_app. reflexivity.
Qed.

Lemma pulses_app (t1 t2 : list event) :
  pulses (t1 ++ t2) = (pulses t1 + pulses t2)%nat.
Proof. unfold pulses. rewrite filter_app, length_app. reflexivity. Qed.

(** The counter never goes below zero. *)
Lemma loop_body_count_nonneg up st :
  0 ≤ reboot_count st → 0 ≤ reboot_count (loop_body self up st).1.
Proof.
  intros Hst. unfold loop_body.
  repeat match goal with
         | |- context [if ?c then _ else _] => destruct c
         end; simpl; lia.
Qed.

Lemma final_state_count_nonneg verdicts st :
  0 ≤ reboot_count st → 0 ≤ reboot_count (final_state self verdicts st).
Proof.
  apply (final_state_invariant self (λ st, 0 ≤ reboot_count st)).
  intros up st0. apply loop_body_count_nonneg.
Qed.

(** An up verdict brings any state with a counter of at least zero back to
    the initial state. *)
Lemma loop_body_up_initial st :
  0 ≤ reboot_count st → (loop_body self true st).1 = initial_state.
Proof.
  intros Hst. rewrite loop_body_up.
  destruct st as [count flag]; simpl in *.
  destruct (Z.ltb_spec 0 count); simpl; [reflexivity|].
  destruct flag; simpl; [reflexivity|].
  unfold initial_state. f_equal. lia.
Qed.

(** After a down verdict there is something for an up verdict to clear. *)
Lemma loop_body_down_needs_recovery st :
  0 ≤ reboot_count st → needs_recovery (loop_body self false st).1 = true.
Proof.
  intros Hst. unfold needs_recovery, loop_body.
  destruct ((0 <? reboot_limit self)
            && (reboot_limit self <=? reboot_count st)); simpl.
  - reflexivity.
  - apply orb_true_iff. left. apply Z.ltb_lt. lia.
Qed.

(** X1. An up verdict forgets the past: whatever was observed before it, the
    loop goes on from the initial state. *)
Theorem up_verdict_resets_run verdicts later :
  final_state self (verdicts ++ true :: later) initial_state
    = final_state self later initial_state
  ∧ trace_of self (verdicts ++ true :: later) initial_state
    = trace_of self (verdicts ++ [true]) initial_state
        ++ trace_of self later initial_state.
Proof.
  assert (Hup : final_state self (verdicts ++ [true]) initial_state
                = initial_state).
  { rewrite final_state_app, final_state_cons, final_state_nil.
    apply loop_body_up_initial, final_state_count_nonneg. done. }
  replace (verdicts ++ true :: later) with ((verdicts ++ [true]) ++ later)
    by (rewrite <- (assoc_L (++)); reflexivity).
  rewrite final_state_app, trace_of_app, Hup. split; reflexivity.
Qed.

(** X2. Every iteration sleeps exactly once, and only an iteration on a down
    verdict can pulse the relay, once: a run sleeps as many times as there
    are verdicts and pulses at most as many times as there are down
    verdicts. *)
Theorem run_sleeps_and_pulses verdicts st :
  sleeps (trace_of self verdicts st) = length verdicts
  ∧ (pulses (trace_of self verdicts st) ≤ length (filter negb verdicts))%nat.
Proof.
  revert st. induction verdicts as [|up rest IH]; intros st.
  - split; reflexivity.
  - rewrite trace_of_cons, pulses_app. unfold sleeps in *.
    rewrite filter_app, length_app.
    destruct (IH (loop_body self up st).1) as [-> Hpulses].
    assert (Hone : length (filter is_sleep (loop_body self up st).2) = 1%nat
                   ∧ (pulses (loop_body self up st).2
                      ≤ if up then 0 else 1)%nat).
    { destruct up; unfold loop_body;
        repeat match goal with
               | |- context [if ?c then _ else _] => destruct c
               end; split; first [reflexivity | vm_compute; lia]. }
    destruct Hone as [-> Hone]. split; [reflexivity|].
    destruct up.
    + rewrite filter_cons_False by (simpl; tauto). lia.
    + rewrite filter_cons_True by (simpl; tauto). simpl length. lia.
Qed.

(** X3. With a positive limit, the attempt numbers the run logs are between
    1 and the limit. *)
Theorem attempt_numbers_bounded verdicts flag :
  0 < reboot_limit self →
  Forall (λ n, 1 ≤ n ≤ reboot_limit self)
    (attempt_numbers
       (trace_of self verdicts
          {| reboot_count := 0; reboots_reached_limit := flag |})).
Proof.
  intros Hpos.
  assert (Hgen : ∀ st, 0 ≤ reboot_count st ≤ reboot_limit self →
            Forall (λ n, 1 ≤ n ≤ reboot_limit self)
              (attempt_numbers (trace_of self verdicts st)));
    [|apply Hgen; simpl; lia].
  induction verdicts as [|up rest IH]; intros st Hst; [constructor|].
  rewrite trace_of_cons. unfold attempt_numbers in *.
  rewrite omap_app. apply Forall_app. split.
  - destruct up.
    + rewrite loop_body_up.
      destruct ((0 <? reboot_count st) || reboots_reached_limit st);
        constructor.
    + destruct (Z.le_gt_cases (reboot_limit self) (reboot_count st)).
      * rewrite loop_body_limit by done. constructor.
      * rewrite loop_body_reboot by lia. repeat constructor; simpl; lia.
  - apply IH, loop_body_preserves_bound; assumption.
Qed.

(** X4. The run logs that the network is back up once for every up verdict
    that comes right after a down verdict, and at no other time. *)
Theorem back_up_logged_on_recovery verdicts :
  back_up_logs (trace_of self verdicts initial_state)
  = recoveries false verdicts.
Proof.
  assert (Hgen : ∀ st, 0 ≤ reboot_count st →
            back_up_logs (trace_of self verdicts st)
            = recoveries (needs_recovery st) verdicts);
    [|apply (Hgen initial_state); done].
  induction verdicts as [|up rest IH]; intros st Hst; [reflexivity|].
  rewrite trace_of_cons. unfold back_up_logs in *.
  rewrite filter_app, length_app.
  rewrite IH by (apply loop_body_count_nonneg, Hst).
  cbn [recoveries]. destruct up.
  - rewrite loop_body_up_initial by done.
    rewrite loop_body_up. fold (needs_recovery st).
    destruct (needs_recovery st); reflexivity.
  - rewrite loop_body_down_needs_recovery by done.
    unfold loop_body.
    destruct ((0 <? reboot_limit self)
              && (reboot_limit self <=? reboot_count st)); reflexivity.
Qed.

End Runs.

Import Trace.

Lemma attempt_numbers_bounded_default :
  Forall (λ n, 1 ≤ n ≤ reboot_limit default_config)
    (attempt_numbers
       (trace_of default_config [false; false; false; false; false; true]
          {| reboot_count := 0; reboots_reached_limit := false |})).
Proof.
  apply (attempt_numbers_bounded default_config
           [false; false; false; false; false; true] false).
  simpl. unfold REBOOT_LIMIT. lia.
Defined.

(** ** A lasting outage *)

Section Outage.

Variable self : config.
Hypothesis limit_positive : 0 < reboot_limit self.

(** Below the limit, [m] down verdicts are [m] reboot attempts. *)
Lemma downs_below_limit (m : nat) count flag :
  0 ≤ count → count + Z.of_nat m ≤ reboot_limit self →
  final_state self (replicate m false)
    {| reboot_count := count; reboots_reached_limit := flag |}
    = {| reboot_count := count + Z.of_nat m; reboots_reached_limit := flag |}
  ∧ pulses (trace_of self (replicate m false)
              {| reboot_count := count; reboots_reached_limit := flag |}) = m.
Proof.
  revert count. induction m as [|m IH]; intros count Hcount Hlim.
  - split; [|reflexivity]. rewrite final_state_nil. f_equal. lia.
  - cbn [replicate].
    rewrite final_state_cons, trace_of_cons, pulses_app.
    rewrite loop_body_reboot by (simpl; lia). cbn [fst snd reboot_count
      reboots_reached_limit].
    destruct (IH (count + 1)) as [-> ->]; [lia..|].
    split; [f_equal; lia | reflexivity].
Qed.

(** As many attempts as the limit allows, then the backoff. *)
Lemma outage_cycle flag :
  let limit := Z.to_nat (reboot_limit self) in
  final_state self (replicate (S limit) false)
    {| reboot_count := 0; reboots_reached_limit := flag |}
    = {| reboot_count := 0; reboots_reached_limit := true |}
  ∧ pulses (trace_of self (replicate (S limit) false)
              {| reboot_count := 0; reboots_reached_limit := flag |})
    = limit.
Proof.
  intros limit. rewrite replicate_S_end.
  rewrite final_state_app, trace_of_app, pulses_app.
  destruct (downs_below_limit limit 0 flag) as [-> ->]; [lia..|].
  rewrite final_state_cons, final_state_nil, trace_of_cons, trace_of_nil.
  rewrite loop_body_limit by (simpl; lia).
  split; [reflexivity|]. cbn [snd]. rewrite app_nil_r.
  change (pulses _) with 0%nat. lia.
Qed.

(** X5. While the network stays down, the relay is pulsed in rounds: every
    [limit + 1] down verdicts are [limit] pulses followed by one backoff,
    over and over. *)
Theorem outage_rounds (rounds : nat) :
  let limit := Z.to_nat (reboot_limit self) in
  final_state self (replicate (rounds * S limit) false) initial_state
    = match rounds with
      | O => initial_state
      | S _ => {| reboot_count := 0; reboots_reached_limit := true |}
      end
  ∧ pulses (trace_of self (replicate (rounds * S limit) false) initial_state)
    = (rounds * limit)%nat.
Proof.
  intros limit. induction rounds as [|rounds [IHstate IHpulses]].
  - split; reflexivity.
  - replace (S rounds * S limit)%nat with (rounds * S limit + S limit)%nat
      by lia.
    rewrite replicate_add, final_state_app, trace_of_app, pulses_app.
    rewrite IHstate, IHpulses.
    assert (Hcycle := outage_cycle). cbn zeta in Hcycle. fold limit in Hcycle.
    destruct rounds.
    + unfold initial_state.
      destruct (Hcycle false) as [-> ->]. split; [reflexivity | lia].
    + destruct (Hcycle true) as [-> ->]. split; [reflexivity | lia].
Qed.

End Outage.

Lemma outage_rounds_default :
  let limit := Z.to_nat (reboot_limit default_config) in
  final_state default_config (replicate (2 * S limit) false) initial_state
    = {| reboot_count := 0; reboots_reached_limit := true |}
  ∧ pulses (trace_of default_config (replicate (2 * S limit) false)
              initial_state)
    = (2 * limit)%nat.
Proof.
  apply (outage_rounds default_config).
  simpl. unfold REBOOT_LIMIT. lia.
Defined.

(** ** Which destinations a round pings *)

Lemma any_map_stops_at_first {A} (f : A → bool) (xs : list A) :
  match any_map f xs with
  | (true, tried) =>
      ∃ failed x, tried = failed ++ [x] ∧ f x = true
                  ∧ Forall (λ y, f y = false) failed
  | (false, tried) => tried = xs ∧ Forall (λ y, f y = false) xs
  end.
Proof.
  induction xs as [|x rest IH]; simpl.
  - split; [reflexivity | constructor].
  - destruct (f x) eqn:Hfx.
    + exists [], x. repeat split; [exact Hfx | constructor].
    + destruct (any_map f rest) as [[] tried].
      * destruct IH as (failed & y & -> & Hy & Hfailed).
        exists (x :: failed), y. repeat split; [exact Hy|].
        constructor; assumption.
      * destruct IH as [-> Hall]. split; [reflexivity|].
        constructor; assumption.
Qed.

(** X7. A round pings the destinations in the shuffled order and stops at
    the first one that answers: when the network is reported up, the last
    destination pinged answered and all before it failed; when it is
    reported down, every destination was pinged once and failed. *)
Theorem round_stops_at_first_answer (dests : list string)
    (ping : string → bool) (shuffle : list string → list string) :
  let '(up, pinged) := network_up_among dests ping shuffle in
  pinged `prefix_of` shuffle dests
  ∧ if up then
      ∃ failed dest, pinged = failed ++ [dest] ∧ ping dest = true
                     ∧ Forall (λ d, ping d = false) failed
    else pinged = shuffle dests ∧ Forall (λ d, ping d = false) pinged.
Proof.
  unfold network_up_among.
  pose proof (any_map_tried_prefix (λ dest, ping dest) (shuffle dests))
    as Hprefix.
  pose proof (any_map_stops_at_first (λ dest, ping dest) (shuffle dests))
    as Hstop.
  destruct (any_map _ (shuffle dests)) as [[] pinged]; simpl in *.
  - split; [exact Hprefix | exact Hstop].
  - destruct Hstop as [-> Hall]. repeat split; done.
Qed.

(** ** pulse_gpio_pin.py as a script *)

Module PulseGpioPinScriptFacts.

Import PulseGpioPin PulseGpioPinScript.

Section Script.

Variable int_of : string → option Z.
Variable float_of : string → option float.
Variable raises : nat → bool.

Local Ltac exits := split; [reflexivity | split; [lia | reflexivity]].

(** X8. When the script exits, it is with a status from 1 to 4, after
    printing the usage, and without having touched the board.  It gets to
    the pulse only with at least one argument, no help flag anywhere, a
    first argument that is an integer from 1 to [MAX_PIN_NUM] and, if there
    is a second one, a number that is not [<= 0]; the pulse is then on that
    pin for that duration, 2 seconds by default. *)
Theorem script_outcome (argv : list string) (b : board) :
  match main int_of float_of raises argv b with
  | Exit code err b' => b' = b ∧ 1 ≤ code ≤ 4 ∧ last err = Some UsageDoc
  | Pulsed err r b' =>
      length argv ≠ 1%nat ∧ ("-h" ∉ argv) ∧ ("--help" ∉ argv)
      ∧ ∃ arg pin_num pulse_for_seconds,
          argv !! 1%nat = Some arg ∧ int_of arg = Some pin_num
          ∧ 1 ≤ pin_num ≤ MAX_PIN_NUM
          ∧ ((length argv ≤ 2)%nat
               ∧ pulse_for_seconds = DEFAULT_PULSE_SECONDS
             ∨ ∃ arg2, argv !! 2%nat = Some arg2
                 ∧ float_of arg2 = Some pulse_for_seconds
                 ∧ (pulse_for_seconds <=? 0)%float = false)
          ∧ (r, b') = pulse_once raises pin_num pulse_for_seconds b
  end.
Proof.
  unfold main, print_usage_and_exit.
  destruct (bool_decide_reflect (length argv = 1%nat)) as [Hlen|Hlen];
    [simpl; exits|].
  destruct (bool_decide_reflect ("-h" ∈ argv)) as [Hh|Hh]; [simpl; exits|].
  destruct (bool_decide_reflect ("--help" ∈ argv)) as [Hhelp|Hhelp];
    [simpl; exits|].
  cbn [orb].
  destruct (argv !! 1%nat) as [arg|] eqn:Harg; simpl; [|exits].
  destruct (int_of arg) as [pin_num|] eqn:Hpin; simpl; [|exits].
  destruct (Z.ltb_spec pin_num 1); [simpl; exits|].
  destruct (Z.ltb_spec MAX_PIN_NUM pin_num); [simpl; exits|].
  cbn [orb].
  destruct (bool_decide_reflect (2 < length argv)%nat) as [Hlen2|Hlen2].
  - destruct (argv !! 2%nat) as [arg2|] eqn:Harg2; simpl; [|exits].
    unfold pulse_seconds_of.
    destruct (float_of arg2) as [secs|] eqn:Hsecs; [|exits].
    destruct (secs <=? 0)%float eqn:Hle; [exits|].
    destruct (pulse_once raises pin_num secs b) as [r b'] eqn:Hpulse.
    split; [exact Hlen|]. split; [exact Hh|]. split; [exact Hhelp|].
    exists arg, pin_num, secs.
    split; [reflexivity|]. split; [exact Hpin|]. split; [lia|].
    split; [|symmetry; exact Hpulse]. right. exists arg2. done.
  - destruct (pulse_once raises pin_num DEFAULT_PULSE_SECONDS b)
      as [r b'] eqn:Hpulse.
    split; [exact Hlen|]. split; [exact Hh|]. split; [exact Hhelp|].
    exists arg, pin_num, DEFAULT_PULSE_SECONDS.
    split; [reflexivity|]. split; [exact Hpin|]. split; [lia|].
    split; [|symmetry; exact Hpulse]. left. split; [lia | reflexivity].
Qed.

(** X9. With a valid pin and a valid duration, the script pulses that pin
    for that duration; arguments after the second one are reported as
    unused, on stderr, and change nothing else. *)
Theorem script_pulses (prog arg arg2 : string) (extra : list string)
    (pin_num : Z) (pulse_for_seconds : float) (b : board) :
  ("-h" ∉ prog :: arg :: arg2 :: extra) →
  ("--help" ∉ prog :: arg :: arg2 :: extra) →
  int_of arg = Some pin_num → 1 ≤ pin_num ≤ MAX_PIN_NUM →
  float_of arg2 = Some pulse_for_seconds →
  (pulse_for_seconds <=? 0)%float = false →
  main int_of float_of raises (prog :: arg :: arg2 :: extra) b =
    Pulsed (match extra with
            | [] => []
            | _ :: _ => [WarnUnused (String.concat " " extra)]
            end)
      (pulse_once raises pin_num pulse_for_seconds b).1
      (pulse_once raises pin_num pulse_for_seconds b).2
  ∧ main int_of float_of raises [prog; arg] b =
    Pulsed []
      (pulse_once raises pin_num DEFAULT_PULSE_SECONDS b).1
      (pulse_once raises pin_num DEFAULT_PULSE_SECONDS b).2.
Proof.
  intros Hh Hhelp Hpin Hrange Hsecs Hpos.
  assert (Hh2 : "-h" ∉ [prog; arg]).
  { intros Hin. apply Hh.
    apply elem_of_cons in Hin as [-> | Hin]; [left|].
    apply elem_of_cons in Hin as [-> | Hin]; [right; left | inversion Hin]. }
  assert (Hhelp2 : "--help" ∉ [prog; arg]).
  { intros Hin. apply Hhelp.
    apply elem_of_cons in Hin as [-> | Hin]; [left|].
    apply elem_of_cons in Hin as [-> | Hin]; [right; left | inversion Hin]. }
  assert (Hlow : (pin_num <? 1) = false) by (apply Z.ltb_ge; lia).
  assert (Hhigh : (MAX_PIN_NUM <? pin_num) = false) by (apply Z.ltb_ge; lia).
  unfold main. split.
  - rewrite (bool_decide_eq_false_2 (length _ = 1%nat)) by (simpl; lia).
    rewrite (bool_decide_eq_false_2 _ Hh), (bool_decide_eq_false_2 _ Hhelp).
    cbn [orb lookup list_lookup mbind option_bind]. rewrite Hpin, Hlow, Hhigh.
    cbn [orb].
    rewrite (bool_decide_eq_true_2 (2 < _)%nat) by (simpl; lia).
    unfold pulse_seconds_of. rewrite Hsecs, Hpos.
    destruct (pulse_once raises pin_num pulse_for_seconds b) as [r b'].
    destruct extra as [|x extra'].
    + rewrite bool_decide_eq_false_2 by (simpl; lia). reflexivity.
    + rewrite bool_decide_eq_true_2 by (simpl; lia). reflexivity.
  - rewrite (bool_decide_eq_false_2 (length _ = 1%nat)) by (simpl; lia).
    rewrite (bool_decide_eq_false_2 _ Hh2), (bool_decide_eq_false_2 _ Hhelp2).
    cbn [orb lookup list_lookup mbind option_bind]. rewrite Hpin, Hlow, Hhigh.
    cbn [orb].
    rewrite (bool_decide_eq_false_2 (2 < _)%nat) by (simpl; lia).
    rewrite (bool_decide_eq_false_2 (3 < _)%nat) by (simpl; lia).
    destruct (pulse_once raises pin_num DEFAULT_PULSE_SECONDS b) as [r b'].
    reflexivity.
Qed.

End Script.

End PulseGpioPinScriptFacts.

(** ** A library call that fails *)

Module PulseFailure.

Import PulseGpioPin.

Local Ltac step :=
  first
    [ rewrite lookup_insert_eq
    | match goal with
      | |- context [Nat.eqb ?a ?b] =>
          first
            [ rewrite (proj2 (Nat.eqb_eq a b))
                by (rewrite ?length_app; simpl; lia)
            | rewrite (proj2 (Nat.eqb_neq a b))
                by (rewrite ?length_app; simpl; lia) ]
      end ];
  cbv beta iota zeta delta
    [log_call set_warnings set_bcm set_channels
     warnings bcm_mode channels calls].

(** X10. When one library call of the pulse fails, be it while the line is
    being set up, driven or held, the calls stop there, the cleanup still
    runs and releases the line, and the exception reaches the caller. *)
Theorem pulse_failure_propagates (pin_num : Z) (for_seconds : float)
    (b : board) (j : nat) :
  (j < 6)%nat →
  let n := length (calls b) in
  let '(r, b') := pulse_once (fails_at (n + j)) pin_num for_seconds b in
  r = Raise (LibraryFailure (n + j))
  ∧ calls b' =
      calls b
        ++ take (S j) (RebooterOnBoard.pulse_calls pin_num for_seconds)
        ++ [Cleanup]
  ∧ channels b' = ∅.
Proof.
  intros Hj. destruct b as [w m chs cs]. cbn [calls]. cbv zeta.
  unfold pulse_once, pin_pulser, try_finally, pulse_pin, bind,
    GPIO_setwarnings, GPIO_setmode_BCM, GPIO_setup_OUT, GPIO_output, sleep,
    GPIO_cleanup, invoke, fails_at.
  cbv beta iota zeta delta
    [log_call set_warnings set_bcm set_channels
     warnings bcm_mode channels calls].
  do 6 (destruct j as [|j];
        [repeat step;
         (split; [do 2 f_equal; rewrite ?length_app; simpl; lia|]);
         (split; [|reflexivity]);
         cbn [take RebooterOnBoard.pulse_calls app];
         rewrite <- ?(assoc_L (++)); reflexivity|]).
  lia.
Qed.

Lemma pulse_failure_propagates_sleep :
  let '(r, b') := pulse_once (fails_at (0 + 4)) 21 2 fresh_board in
  r = Raise (LibraryFailure (0 + 4))
  ∧ calls b' =
      [] ++ take 5 (RebooterOnBoard.pulse_calls 21 2) ++ [Cleanup]
  ∧ channels b' = ∅.
Proof.
  apply (pulse_failure_propagates 21 2 fresh_board 4). lia.
Defined.

End PulseFailure.

(** ** The loop and the board *)

Module RebooterOnBoardFacts.

Import PulseGpioPin RebooterOnBoard.

Lemma pulse_rounds_add (p q : nat) (round : list call) :
  concat (replicate (p + q) round) =
  concat (replicate p round) ++ concat (replicate q round).
Proof. rewrite replicate_add, concat_app. reflexivity. Qed.

(** One iteration without a failure: the state is that of [loop_body], and
    the board has seen one round of calls for each pulse of its trace. *)
Lemma loop_body_on_board_no_failure (self : config) up st b :
  ∃ b',
    loop_body_on_board no_failure self up st b
      = (Ok (loop_body self up st).1, b')
    ∧ calls b' =
        calls b ++ concat (replicate (pulses (loop_body self up st).2)
                             (pulse_calls (relay_gpio_pin self)
                                (pulse_for_seconds self)))
    ∧ channels b' =
        match pulses (loop_body self up st).2 with
        | O => channels b
        | S _ => ∅
        end.
Proof.
  unfold loop_body_on_board, loop_body. destruct up.
  - exists b.
    destruct ((0 <? reboot_count st) || reboots_reached_limit st);
      (split; [reflexivity|]); (split; [|reflexivity]);
      change (pulses _) with 0%nat; simpl; rewrite app_nil_r; reflexivity.
  - destruct ((0 <? reboot_limit self)
              && (reboot_limit self <=? reboot_count st)).
    + exists b. split; [reflexivity|]. split; [|reflexivity].
      change (pulses _) with 0%nat. simpl. rewrite app_nil_r. reflexivity.
    + rewrite PulseGpioPinFacts.pulse_once_normal. eexists.
      split; [reflexivity|]. split; [|reflexivity].
      change (pulses _) with 1%nat. simpl. reflexivity.
Qed.

(** X11. As long as no library call fails, the loop on the board goes
    through the states of the loop, and the board sees one complete round
    of calls (set up, on, hold, off, clean up) for each pulse of the trace;
    after the first pulse no channel is left configured. *)
Theorem main_loop_on_board_no_failure (self : config) verdicts st b :
  let pulsed := pulses (trace_of self verdicts st) in
  let '(r, b') := main_loop_on_board no_failure self verdicts st b in
  r = Ok (final_state self verdicts st)
  ∧ calls b' =
      calls b ++ concat (replicate pulsed
                           (pulse_calls (relay_gpio_pin self)
                              (pulse_for_seconds self)))
  ∧ channels b' = match pulsed with O => channels b | S _ => ∅ end.
Proof.
  revert st b. induction verdicts as [|up rest IH]; intros st b.
  - simpl. rewrite app_nil_r. done.
  - cbn [main_loop_on_board].
    destruct (loop_body_on_board_no_failure self up st b)
      as (b1 & -> & Hcalls & Hchannels).
    specialize (IH (loop_body self up st).1 b1). cbv zeta in IH.
    destruct (main_loop_on_board no_failure self rest _ b1) as [r b'].
    destruct IH as (-> & Hcalls' & Hchannels').
    cbv zeta. rewrite final_state_cons, trace_of_cons, pulses_app.
    split; [reflexivity|]. split.
    + rewrite Hcalls', Hcalls, pulse_rounds_add, (assoc_L (++)).
      reflexivity.
    + rewrite Hchannels', Hchannels.
      destruct (pulses (loop_body self up st).2),
        (pulses (trace_of self rest (loop_body self up st).1)); reflexivity.
Qed.

Section WithFailures.

Variable raises : nat → bool.



End WithFailures.

End RebooterOnBoardFacts.

(** ** The script and the rebooter *)

Module ScriptAndRebooter.

Import PulseGpioPin PulseGpioPinScript.

Lemma script_pulses_example :
  let int_of := λ s : string,
        if bool_decide (s = "21") then Some 21 else None in
  let float_of := λ s : string,
        if bool_decide (s = "0.5") then Some 0.5%float else None in
  main int_of float_of no_failure ["pulse"; "21"; "0.5"; "now"; "please"]
    fresh_board =
    Pulsed [WarnUnused "now please"]
      (pulse_once no_failure 21 0.5 fresh_board).1
      (pulse_once no_failure 21 0.5 fresh_board).2
  ∧ main int_of float_of no_failure ["pulse"; "21"] fresh_board =
    Pulsed []
      (pulse_once no_failure 21 DEFAULT_PULSE_SECONDS fresh_board).1
      (pulse_once no_failure 21 DEFAULT_PULSE_SECONDS fresh_board).2.
Proof.
  apply (PulseGpioPinScriptFacts.script_pulses
           (λ s : string, if bool_decide (s = "21") then Some 21 else None)
           (λ s : string,
              if bool_decide (s = "0.5") then Some 0.5%float else None)
           no_failure "pulse" "21" "0.5" ["now"; "please"] 21 0.5%float
           fresh_board).
  - apply (bool_decide_unpack _). vm_compute. exact I.
  - apply (bool_decide_unpack _). vm_compute. exact I.
  - reflexivity.
  - unfold MAX_PIN_NUM. lia.
  - reflexivity.
  - reflexivity.
Defined.

(** X13. The two programs disagree on pin [MAX_PIN_NUM]: the script pulses
    it, while the validation of the rebooter rejects it, with a message that
    says that pins up to 27 are allowed. *)
Theorem max_pin_accepted_by_script_only (int_of : string → option Z)
    (float_of : string → option float) (raises : nat → bool)
    (prog arg : string) (b : board) (args : config) :
  ("-h" ∉ [prog; arg]) → ("--help" ∉ [prog; arg]) →
  int_of arg = Some MAX_PIN_NUM →
  relay_gpio_pin args = MAX_PIN_NUM →
  main int_of float_of raises [prog; arg] b =
    Pulsed []
      (pulse_once raises MAX_PIN_NUM DEFAULT_PULSE_SECONDS b).1
      (pulse_once raises MAX_PIN_NUM DEFAULT_PULSE_SECONDS b).2
  ∧ validate args
    = Some "--relay-gpio-pin must be an integer between 1 and 27.".
Proof.
  intros Hh Hhelp Hpin Hargs. split.
  - unfold main.
    rewrite (bool_decide_eq_false_2 (length _ = 1%nat)) by (simpl; lia).
    rewrite (bool_decide_eq_false_2 _ Hh), (bool_decide_eq_false_2 _ Hhelp).
    cbn [orb lookup list_lookup mbind option_bind]. rewrite Hpin.
    change (MAX_PIN_NUM <? 1) with false.
    rewrite Z.ltb_irrefl. cbn [orb].
    rewrite (bool_decide_eq_false_2 (2 < _)%nat) by (simpl; lia).
    rewrite (bool_decide_eq_false_2 (3 < _)%nat) by (simpl; lia).
    destruct (pulse_once raises MAX_PIN_NUM DEFAULT_PULSE_SECONDS b)
      as [r b'].
    reflexivity.
  - unfold validate. rewrite Hargs, Z.ltb_irrefl. reflexivity.
Qed.

Lemma max_pin_accepted_by_script_only_example :
  let int_of := λ s : string,
        if bool_decide (s = "27") then Some 27 else None in
  let args :=
    {| interface := PING_INTERFACE; ping_interval := PING_INTERVAL;
       post_reboot_interval := POST_REBOOT_INTERVAL;
       reboot_limit := REBOOT_LIMIT;
       post_reboot_limit_interval := POST_REBOOT_LIMIT_INTERVAL;
       relay_gpio_pin := 27; pulse_for_seconds := PULSE_FOR_SECONDS |} in
  main int_of (λ _, None) no_failure ["pulse"; "27"] fresh_board =
    Pulsed []
      (pulse_once no_failure MAX_PIN_NUM DEFAULT_PULSE_SECONDS fresh_board).1
      (pulse_once no_failure MAX_PIN_NUM DEFAULT_PULSE_SECONDS fresh_board).2
  ∧ validate args
    = Some "--relay-gpio-pin must be an integer between 1 and 27.".
Proof.
  apply (max_pin_accepted_by_script_only
           (λ s : string, if bool_decide (s = "27") then Some 27 else None)
           (λ _, None) no_failure "pulse" "27" fresh_board).
  - apply (bool_decide_unpack _). vm_compute. exact I.
  - apply (bool_decide_unpack _). vm_compute. exact I.
  - reflexivity.
  - reflexivity.
Defined.

End ScriptAndRebooter.

(** ** The flag and the counter *)

Section Rounds.

Variable self : config.




End Rounds.


(** ** The order of floats that are numbers *)

Import Durations.

Section FloatOrder.

Import SpecFloat FloatOps.

Lemma SFcompare_antisym (a b : spec_float) :
  SFcompare b a = option_map CompOpp (SFcompare a b).
Proof.
  destruct a as [sa|sa| |sa ma ea], b as [sb|sb| |sb mb eb]; simpl;
    try reflexivity;
    try (destruct sa; reflexivity); try (destruct sb; reflexivity);
    try (destruct sa, sb; reflexivity).
  pose proof (Pos.compare_cont_antisym ma mb Eq) as Hm. simpl in Hm.
  destruct sa, sb; try reflexivity;
    rewrite (Z.compare_antisym ea eb);
    destruct (ea ?= eb)%Z; simpl; try reflexivity;
    rewrite <- Hm; rewrite ?CompOpp_involutive; reflexivity.
Qed.

Lemma is_number_compare (x y : float) :
  is_number x = true → is_number y = true →
  ∃ c, SFcompare (Prim2SF x) (Prim2SF y) = Some c.
Proof.
  unfold is_number. rewrite !FloatAxioms.eqb_spec. unfold SFeqb.
  destruct (Prim2SF x), (Prim2SF y); simpl; try discriminate; eauto.
Qed.

(** Between numbers, [x < y] is the negation of [y <= x]. *)
Lemma ltb_negb_leb (x y : float) :
  is_number x = true → is_number y = true →
  (x <? y)%float = negb (y <=? x)%float.
Proof.
  intros Hx Hy. destruct (is_number_compare x y Hx Hy) as [c Hc].
  rewrite FloatAxioms.ltb_spec, FloatAxioms.leb_spec. unfold SFltb, SFleb.
  rewrite (SFcompare_antisym (Prim2SF x) (Prim2SF y)), Hc.
  destruct c; reflexivity.
Qed.

Lemma leb_negb_ltb (x y : float) :
  is_number x = true → is_number y = true →
  (x <=? y)%float = negb (y <? x)%float.
Proof.
  intros Hx Hy. rewrite (ltb_negb_leb y x Hy Hx), negb_involutive.
  reflexivity.
Qed.

End FloatOrder.

(** ** The checks on the arguments *)

(** C3, amended. Before the loop starts the arguments are checked against
    [0 < relay_gpio_pin < MAX_PIN_NUM], [pulse_for_seconds > 0],
    [ping_interval >= MIN_PING_INTERVAL],
    [post_reboot_interval >= ping_interval] and
    [post_reboot_limit_interval >= post_reboot_interval], in this order:
    for durations that are numbers, the first constraint that is violated
    makes the program print its message with the usage and exit with
    status 2, which is not the status 5 of an interface that is not up, and
    the loop is not entered; when none is violated the program goes on to
    the interface check.  The reboot limit is not checked: validation does
    not depend on it. *)
Theorem validation_checks (args : config) operstate verdicts :
  durations_are_numbers args = true →
  validate args =
    (if negb ((0 <? relay_gpio_pin args)
              && (relay_gpio_pin args <? PulseGpioPin.MAX_PIN_NUM))
     then Some "--relay-gpio-pin must be an integer between 1 and 27."
     else if negb (0 <? pulse_for_seconds args)%float
     then Some "--pulse-for-seconds must be a positive number."
     else if negb (MIN_PING_INTERVAL <=? ping_interval args)%float
     then Some "--ping-interval should be at least 1.0 (seconds)."
     else if negb (ping_interval args <=? post_reboot_interval args)%float
     then
       Some "--post-reboot-interval needs to be longer than --ping-interval."
     else if negb (post_reboot_interval args
                   <=? post_reboot_limit_interval args)%float
     then
       Some "--post-reboot-limit-interval needs to be longer than --post-reboot-interval."
     else None)
  ∧ (validate args = None ↔
       (0 < relay_gpio_pin args < PulseGpioPin.MAX_PIN_NUM)
       ∧ (0 <? pulse_for_seconds args)%float = true
       ∧ (MIN_PING_INTERVAL <=? ping_interval args)%float = true
       ∧ (ping_interval args <=? post_reboot_interval args)%float = true
       ∧ (post_reboot_interval args
          <=? post_reboot_limit_interval args)%float = true)
  ∧ match validate args with
    | Some msg => main args operstate verdicts = Exited 2 [Usage msg]
    | None =>
        main args operstate verdicts
        = start_main_loop args operstate verdicts
    end
  ∧ (verify_interface operstate = false →
     start_main_loop args operstate verdicts
     = Exited 5 [Log (InterfaceNotUp (interface args)); Log Exiting])
  ∧ (∀ limit, validate (with_reboot_limit limit args) = validate args).
Proof.
  unfold durations_are_numbers. intros Hnumbers.
  apply andb_true_iff in Hnumbers as [Hnumbers Hlimit].
  apply andb_true_iff in Hnumbers as [Hnumbers Hpost].
  apply andb_true_iff in Hnumbers as [Hpulse Hping].
  match goal with
  | |- validate args = ?checks ∧ _ =>
      assert (Hordered : validate args = checks); [|split; [exact Hordered|]]
  end.
  { unfold validate.
    rewrite (ltb_negb_leb 0 (pulse_for_seconds args)) by done.
    rewrite (leb_negb_ltb MIN_PING_INTERVAL (ping_interval args)) by done.
    rewrite (leb_negb_ltb (ping_interval args) (post_reboot_interval args))
      by done.
    rewrite (leb_negb_ltb (post_reboot_interval args)
               (post_reboot_limit_interval args)) by done.
    rewrite !negb_involutive. reflexivity. }
  split; [|split; [|split]].
  - rewrite Hordered.
    destruct (Z.ltb_spec 0 (relay_gpio_pin args));
      destruct (Z.ltb_spec (relay_gpio_pin args) PulseGpioPin.MAX_PIN_NUM);
      simpl; try (split; [discriminate | intros [? _]; lia]).
    destruct (0 <? pulse_for_seconds args)%float; simpl;
      [|split; [discriminate | intros (_ & ? & _); discriminate]].
    destruct (MIN_PING_INTERVAL <=? ping_interval args)%float; simpl;
      [|split; [discriminate | intros (_ & _ & ? & _); discriminate]].
    destruct (ping_interval args <=? post_reboot_interval args)%float; simpl;
      [|split; [discriminate | intros (_ & _ & _ & ? & _); discriminate]].
    destruct (post_reboot_interval args
              <=? post_reboot_limit_interval args)%float; simpl;
      [|split; [discriminate | intros (_ & _ & _ & _ & ?); discriminate]].
    split; [intros _; repeat split; lia | reflexivity].
  - unfold main. destruct (validate args); reflexivity.
  - intros Hdown. unfold start_main_loop. rewrite Hdown. reflexivity.
  - intros limit. apply validate_ignores_reboot_limit.
Qed.

Lemma validation_checks_short_post_reboot_interval :
  let args :=
    {| interface := PING_INTERFACE; ping_interval := 15;
       post_reboot_interval := 10; reboot_limit := -1;
       post_reboot_limit_interval := 5; relay_gpio_pin := 21;
       pulse_for_seconds := 2 |} in
  validate args
  = Some "--post-reboot-interval needs to be longer than --ping-interval."
  ∧ main args interface_is_up [false]
    = Exited 2
        [Usage "--post-reboot-interval needs to be longer than --ping-interval."].
Proof.
  intros args.
  destruct (validation_checks args interface_is_up [false])
    as (Hordered & _ & Hmain & _); [reflexivity|].
  rewrite Hordered in Hmain |- *. split; [reflexivity | exact Hmain].
Defined.

(** ** Leaving before the loop *)

(** X6. When an argument check fails the program prints the usage message
    and exits with status 2; when the checks pass and the interface check
    does not give return code 0 with exactly the output [up] and a newline,
    it logs two lines and exits with status 5.  Both happen before any ping,
    sleep or pulse, whatever the network verdicts would be. *)
Theorem exits_before_loop (args : config) operstate verdicts :
  validate args ≠ None
  ∨ ¬ (returncode operstate = 0 ∧ stdout operstate = up_newline) →
  main args operstate verdicts =
    match validate args with
    | Some msg => Exited 2 [Usage msg]
    | None => Exited 5 [Log (InterfaceNotUp (interface args)); Log Exiting]
    end.
Proof.
  intros Hcase. unfold main, start_main_loop, parser_error, verify_interface.
  destruct (validate args) as [msg|]; [reflexivity|].
  destruct Hcase as [Hcase|Hdown]; [done|].
  destruct (Z.eqb_spec (returncode operstate) 0) as [Hcode|Hcode];
    [|reflexivity].
  destruct (bool_decide_reflect (stdout operstate = up_newline))
    as [Hout|Hout]; [|reflexivity].
  exfalso. apply Hdown. split; assumption.
Qed.

Lemma exits_before_loop_no_newline :
  main default_config {| returncode := 0; stdout := "up" |} [false; true] =
    Exited 5 [Log (InterfaceNotUp PING_INTERFACE); Log Exiting].
Proof.
  apply (exits_before_loop default_config
           {| returncode := 0; stdout := "up" |} [false; true]).
  right. intros [_ Hout]. discriminate Hout.
Defined.
